(** * Content-filtering engine of sw3do-browser (src-tauri/src/browser/filters.rs)

    A shallow embedding of [FilterEngine]: the filter-list scan of
    [should_block_request], the rule matcher [matches_rule], the
    site-shield registry, the blocked-request counters, the list refresh
    [update_filter_lists] and the line parser [parse_filter_rules].

    Modelling choices:
    - Rust [String]/[&str] are [String.string]; the inputs considered are
      ASCII text, so a Rust [char] is one [ascii].
    - [chrono::DateTime<Utc>] is a [Z] timestamp; [Utc::now()] is an
      argument [now] of the operation that reads the clock.
    - [u32]/[u64] counters are [Z] with the wrap-around of a release build.
    - [filter_lists : HashMap<String, FilterList>] is the list of its
      entries in the map's iteration order ([values()], [iter_mut()]).
      That order is the one of the hash table, fixed by the map's random
      [RandomState] seed, not by insertion; two maps with the same entries
      can list them in different orders.
    - [site_shields] is a [gmap] (only lookups and inserts are used);
      [compiled_rules : HashMap<String, Regex>] maps a pattern to the
      source of its regex, and [Regex::is_match] is the parameter
      [regex_is_match].
    - [Url::parse(url)] followed by [.domain()] is the parameter
      [url_domain]: [None] when parsing fails, [Some d] with [d] the
      optional domain otherwise. *)

From Stdlib Require Import ZArith String Ascii Bool List.
From stdpp Require Import base gmap strings list.
Import ListNotations.
Open Scope string_scope.
Open Scope list_scope.

(** ** Data model *)

Inductive FilterRuleType := Block | Allow | Hide | Redirect.

Record FilterOptions := {
  script : bool;
  image : bool;
  stylesheet : bool;
  xmlhttprequest : bool;
  subdocument : bool;
  third_party : bool;
  popup : bool
}.

(** [impl Default for FilterOptions] *)
Definition FilterOptions_default : FilterOptions := {|
  script := true; image := true; stylesheet := true; xmlhttprequest := true;
  subdocument := true; third_party := true; popup := true |}.

Record FilterRule := {
  pattern : string;
  rule_type : FilterRuleType;
  domains : option (list string);
  exceptions : option (list string);
  options : FilterOptions
}.

(** [last_updated] of a list is [list_last_updated] (record fields share
    one name space in Rocq). *)
Record FilterList := {
  name : string;
  url : string;
  enabled : bool;
  list_last_updated : Z;
  rules : list FilterRule
}.

Record SiteShields := {
  domain : string;
  ad_blocking : bool;
  tracker_blocking : bool;
  third_party_cookies : bool;
  fingerprinting_protection : bool;
  https_only : bool;
  scripts_blocked : Z;   (* u32 *)
  trackers_blocked : Z;  (* u32 *)
  ads_blocked : Z;       (* u32 *)
  last_updated : Z
}.

(** [impl Default for SiteShields]; [last_updated: Utc::now()]. *)
Definition SiteShields_default (now : Z) : SiteShields := {|
  domain := "";
  ad_blocking := true;
  tracker_blocking := true;
  third_party_cookies := false;
  fingerprinting_protection := true;
  https_only := true;
  scripts_blocked := 0;
  trackers_blocked := 0;
  ads_blocked := 0;
  last_updated := now |}.

Record GlobalStats := {
  total_ads_blocked : Z;      (* u64 *)
  total_trackers_blocked : Z; (* u64 *)
  total_scripts_blocked : Z;  (* u64 *)
  bandwidth_saved : Z;        (* u64 *)
  last_reset : Z
}.

Record FilterEngine := {
  filter_lists : list (string * FilterList);
  site_shields : gmap string SiteShields;
  compiled_rules : gmap string string;
  global_stats : GlobalStats
}.

(** ** String primitives of [str] *)

(** [s.starts_with(p)] *)
Fixpoint starts_with (s p : string) : bool :=
  match p, s with
  | EmptyString, _ => true
  | String c p', String c' s' => Ascii.eqb c c' && starts_with s' p'
  | String _ _, EmptyString => false
  end.

(** [s.contains(p)] for a string pattern: [p] occurs at some offset. *)
Fixpoint contains (s p : string) : bool :=
  starts_with s p ||
  match s with
  | EmptyString => false
  | String _ s' => contains s' p
  end.

(** [v.contains(&x)] on a [Vec<String>] *)
Definition vec_contains (v : list string) (x : string) : bool :=
  existsb (String.eqb x) v.

(** ** Matching: [FilterEngine::matches_rule] and [should_block_request] *)

Section Matching.

Variable url_domain : string -> option (option string).
Variable regex_is_match : string -> string -> bool.

Definition matches_rule (e : FilterEngine) (url : string) (rule : FilterRule)
    (request_type origin_domain : string) : bool :=
  if negb match compiled_rules e !! pattern rule with
          | Some regex => regex_is_match regex url
          | None => contains url (pattern rule)
          end
  then false
  else if match domains rule with
          | Some ds => negb (vec_contains ds origin_domain)
          | None => false
          end
  then false
  else if match exceptions rule with
          | Some xs => vec_contains xs origin_domain
          | None => false
          end
  then false
  else if String.eqb request_type "script" then script (options rule)
  else if String.eqb request_type "image" then image (options rule)
  else if String.eqb request_type "stylesheet" then stylesheet (options rule)
  else if String.eqb request_type "xmlhttprequest" then xmlhttprequest (options rule)
  else if String.eqb request_type "subdocument" then subdocument (options rule)
  else true.

(** [for rule in &filter_list.rules { ... }]: [Some b] is a [return b],
    [None] runs off the end of the list. *)
Fixpoint scan_rules (e : FilterEngine) (url request_type origin_domain : string)
    (rs : list FilterRule) : option bool :=
  match rs with
  | [] => None
  | rule :: rs' =>
      if matches_rule e url rule request_type origin_domain then
        match rule_type rule with
        | Block => Some true
        | Allow => Some false
        | _ => scan_rules e url request_type origin_domain rs'
        end
      else scan_rules e url request_type origin_domain rs'
  end.

(** [for filter_list in self.filter_lists.values() { ... }] *)
Fixpoint scan_lists (e : FilterEngine) (url request_type origin_domain : string)
    (ls : list (string * FilterList)) : option bool :=
  match ls with
  | [] => None
  | (_, filter_list) :: ls' =>
      if negb (enabled filter_list) then scan_lists e url request_type origin_domain ls'
      else match scan_rules e url request_type origin_domain (rules filter_list) with
           | Some b => Some b
           | None => scan_lists e url request_type origin_domain ls'
           end
  end.

Definition should_block_request (e : FilterEngine)
    (url request_type origin_domain : string) : bool :=
  match url_domain url with
  | Some parsed_domain =>
      let domain := default "" parsed_domain in
      let scan := default false
                    (scan_lists e url request_type origin_domain (filter_lists e)) in
      match site_shields e !! origin_domain with
      | Some shields =>
          if negb (ad_blocking shields) && negb (tracker_blocking shields) then false
          else if third_party_cookies shields && negb (String.eqb domain origin_domain)
          then true
          else scan
      | None => scan
      end
  | None => false
  end.

(** The rules met by the scan, in scan order: the rules of the enabled
    lists, list after list in map iteration order. *)
Definition rules_in_scan_order (e : FilterEngine) : list FilterRule :=
  flat_map (fun '(_, fl) => if enabled fl then rules fl else []) (filter_lists e).

End Matching.

(** ** Site shields and counters *)

(** Wrap-around [+= 1] on a [u32] and on a [u64] (release build). *)
Definition incr_u32 (x : Z) : Z := (x + 1) mod 2 ^ 32.
Definition incr_u64 (x : Z) : Z := (x + 1) mod 2 ^ 64.

Definition set_engine_shields (e : FilterEngine) (m : gmap string SiteShields) : FilterEngine :=
  {| filter_lists := filter_lists e; site_shields := m;
     compiled_rules := compiled_rules e; global_stats := global_stats e |}.

Definition set_engine_stats (e : FilterEngine) (g : GlobalStats) : FilterEngine :=
  {| filter_lists := filter_lists e; site_shields := site_shields e;
     compiled_rules := compiled_rules e; global_stats := g |}.

Definition set_engine_lists (e : FilterEngine) (ls : list (string * FilterList)) : FilterEngine :=
  {| filter_lists := ls; site_shields := site_shields e;
     compiled_rules := compiled_rules e; global_stats := global_stats e |}.

(** Functional update of one field of a [SiteShields]. *)
Definition with_shields_domain (s : SiteShields) (d : string) : SiteShields :=
  {| domain := d; ad_blocking := ad_blocking s; tracker_blocking := tracker_blocking s;
     third_party_cookies := third_party_cookies s;
     fingerprinting_protection := fingerprinting_protection s; https_only := https_only s;
     scripts_blocked := scripts_blocked s; trackers_blocked := trackers_blocked s;
     ads_blocked := ads_blocked s; last_updated := last_updated s |}.

Definition with_counters (s : SiteShields) (sc tr ad : Z) (t : Z) : SiteShields :=
  {| domain := domain s; ad_blocking := ad_blocking s; tracker_blocking := tracker_blocking s;
     third_party_cookies := third_party_cookies s;
     fingerprinting_protection := fingerprinting_protection s; https_only := https_only s;
     scripts_blocked := sc; trackers_blocked := tr; ads_blocked := ad; last_updated := t |}.

Definition with_totals (g : GlobalStats) (ad tr sc : Z) : GlobalStats :=
  {| total_ads_blocked := ad; total_trackers_blocked := tr; total_scripts_blocked := sc;
     bandwidth_saved := bandwidth_saved g; last_reset := last_reset g |}.

(** [update_site_shields(&mut self, domain, shields)] *)
Definition update_site_shields (e : FilterEngine) (d : string) (shields : SiteShields)
    : FilterEngine :=
  set_engine_shields e (<[d := shields]> (site_shields e)).

(** [get_site_shields(&self, domain) -> SiteShields]: a read through
    [&self], written as a state transition that returns the engine next to
    the value; [now] is the [Utc::now()] of [SiteShields::default()]. *)
Definition get_site_shields (now : Z) (e : FilterEngine) (d : string)
    : FilterEngine * SiteShields :=
  (e, match site_shields e !! d with
      | Some shields => shields
      | None => with_shields_domain (SiteShields_default now) d
      end).

(** [increment_blocked_count(&mut self, domain, block_type)]; [now] is the
    [Utc::now()] stored in [shields.last_updated]. *)
Definition increment_blocked_count (now : Z) (e : FilterEngine) (d block_type : string)
    : FilterEngine :=
  match site_shields e !! d with
  | Some shields =>
      let g := global_stats e in
      let '(shields', g') :=
        if String.eqb block_type "ad" then
          (with_counters shields (scripts_blocked shields) (trackers_blocked shields)
             (incr_u32 (ads_blocked shields)) (last_updated shields),
           with_totals g (incr_u64 (total_ads_blocked g)) (total_trackers_blocked g)
             (total_scripts_blocked g))
        else if String.eqb block_type "tracker" then
          (with_counters shields (scripts_blocked shields) (incr_u32 (trackers_blocked shields))
             (ads_blocked shields) (last_updated shields),
           with_totals g (total_ads_blocked g) (incr_u64 (total_trackers_blocked g))
             (total_scripts_blocked g))
        else if String.eqb block_type "script" then
          (with_counters shields (incr_u32 (scripts_blocked shields)) (trackers_blocked shields)
             (ads_blocked shields) (last_updated shields),
           with_totals g (total_ads_blocked g) (total_trackers_blocked g)
             (incr_u64 (total_scripts_blocked g)))
        else (shields, g) in
      let shields'' := with_counters shields' (scripts_blocked shields')
                         (trackers_blocked shields') (ads_blocked shields') now in
      set_engine_stats (set_engine_shields e (<[d := shields'']> (site_shields e))) g'
  | None => e
  end.

(** ** The line parser [FilterEngine::parse_filter_rules] *)

Definition is_newline (c : ascii) : bool := Ascii.eqb c "010"%char.
Definition is_cr (c : ascii) : bool := Ascii.eqb c "013"%char.

(** [char::is_whitespace] on ASCII: U+0009..U+000D and U+0020. *)
Definition is_whitespace (c : ascii) : bool :=
  let n := nat_of_ascii c in (Nat.leb 9 n && Nat.leb n 13) || Nat.eqb n 32.

(** [str::lines]: split at ["\n"]; a line ending ["\r\n"] loses its ["\r"];
    a final empty line (text ending in a line break, or empty text) is not
    produced. [cur] holds the current line reversed. *)
Fixpoint lines_aux (cur : list ascii) (s : string) : list string :=
  match s with
  | EmptyString =>
      match cur with [] => [] | _ => [string_of_list_ascii (rev cur)] end
  | String c s' =>
      if is_newline c then
        let line := match cur with
                    | c0 :: cur' => if is_cr c0 then cur' else cur
                    | [] => []
                    end in
        string_of_list_ascii (rev line) :: lines_aux [] s'
      else lines_aux (c :: cur) s'
  end.

Definition lines (s : string) : list string := lines_aux [] s.

Fixpoint trim_start (s : string) : string :=
  match s with
  | String c s' => if is_whitespace c then trim_start s' else s
  | EmptyString => EmptyString
  end.

Definition str_rev (s : string) : string :=
  string_of_list_ascii (rev (list_ascii_of_string s)).

(** [str::trim] *)
Definition trim (s : string) : string := str_rev (trim_start (str_rev (trim_start s))).

(** [s.replace("@@", "")]: every non-overlapping occurrence, left to right. *)
Fixpoint replace_atat (s : string) : string :=
  match s with
  | String c1 ((String c2 s') as rest) =>
      if Ascii.eqb c1 "@"%char && Ascii.eqb c2 "@"%char then replace_atat s'
      else String c1 (replace_atat rest)
  | _ => s
  end.

(** [s.split("$").next()]: the text before the first ['$']. *)
Fixpoint before_dollar (s : string) : string :=
  match s with
  | String c s' => if Ascii.eqb c "$"%char then EmptyString else String c (before_dollar s')
  | EmptyString => EmptyString
  end.

(** The body of the loop for one line: [None] is a [continue]. *)
Definition parse_line (line0 : string) : option FilterRule :=
  let line := trim line0 in
  if String.eqb line "" || starts_with line "!" || starts_with line "[" then None
  else
    let rule_type := if starts_with line "@@" then Allow
                     else if contains line "##" then Hide
                     else Block in
    let pattern := before_dollar (replace_atat line) in
    Some {| pattern := pattern; rule_type := rule_type; domains := None;
            exceptions := None; options := FilterOptions_default |}.

Definition parse_filter_rules (content : string) : list FilterRule :=
  fold_right (fun line rules => match parse_line line with
                                | Some r => r :: rules
                                | None => rules
                                end) [] (lines content).

(** ** The refresh [FilterEngine::update_filter_lists] *)

Inductive Result (A E : Type) := Ok (a : A) | Err (err : E).
Arguments Ok {A E} a.
Arguments Err {A E} err.

Definition with_list_rules (fl : FilterList) (rs : list FilterRule) (t : Z) : FilterList :=
  {| name := name fl; url := url fl; enabled := enabled fl;
     list_last_updated := t; rules := rs |}.

(** The network seen by one refresh: [net i u] is the body obtained by the
    [i]-th request of the loop ([reqwest::get(u)] then [.text()]), [None]
    when either step fails; [clock i] is the [Utc::now()] read after it. *)
Fixpoint refresh_lists (net : nat -> string -> option string) (clock : nat -> Z)
    (i : nat) (ls : list (string * FilterList)) : list (string * FilterList) :=
  match ls with
  | [] => []
  | (k, filter_list) :: ls' =>
      let filter_list' :=
        match net i (url filter_list) with
        | Some content => with_list_rules filter_list (parse_filter_rules content) (clock i)
        | None => filter_list
        end in
      (k, filter_list') :: refresh_lists net clock (S i) ls'
  end.

Definition update_filter_lists (net : nat -> string -> option string) (clock : nat -> Z)
    (e : FilterEngine) : FilterEngine * Result unit string :=
  (set_engine_lists e (refresh_lists net clock 0 (filter_lists e)), Ok tt).

(** ** Concrete inputs *)

(** [Url::parse(u)] and [.domain()] on the URLs used below: a [http] or
    [https] URL with a lower-case DNS host name gives that host, and text
    without a [':'] has no scheme and fails to parse
    ([ParseError::RelativeUrlWithoutBase]). The other shapes are not used. *)
Fixpoint host_of (s : string) : string :=
  match s with
  | String c s' =>
      if Ascii.eqb c "/"%char || Ascii.eqb c "?"%char || Ascii.eqb c "#"%char
         || Ascii.eqb c ":"%char
      then EmptyString else String c (host_of s')
  | EmptyString => EmptyString
  end.

Definition url_domain_http (u : string) : option (option string) :=
  if negb (contains u ":") then None
  else if starts_with u "https://" then
    let h := host_of (substring 8 (String.length u) u) in
    if String.eqb h "" then None else Some (Some h)
  else if starts_with u "http://" then
    let h := host_of (substring 7 (String.length u) u) in
    if String.eqb h "" then None else Some (Some h)
  else Some None.

(** No pattern is compiled in these engines, so the matcher is not run. *)
Definition no_regex (_ _ : string) : bool := false.

Definition stats_zero : GlobalStats := {|
  total_ads_blocked := 0; total_trackers_blocked := 0; total_scripts_blocked := 0;
  bandwidth_saved := 0; last_reset := 0 |}.

Definition mk_rule (p : string) (k : FilterRuleType) : FilterRule :=
  {| pattern := p; rule_type := k; domains := None; exceptions := None;
     options := FilterOptions_default |}.

Definition mk_list (n u : string) (en : bool) (rs : list FilterRule) : FilterList :=
  {| name := n; url := u; enabled := en; list_last_updated := 0; rules := rs |}.

Definition easylist_url : string := "https://easylist.to/easylist/easylist.txt".
Definition easyprivacy_url : string := "https://easylist.to/easylist/easyprivacy.txt".

(** [FilterEngine::new()] after [load_default_filter_lists], with the two
    lists in the iteration order [easylist], [easyprivacy] (the other
    order is the other possible hash layout). *)
Definition engine_new (now : Z) : FilterEngine := {|
  filter_lists := [("easylist", mk_list "EasyList" easylist_url true []);
                   ("easyprivacy", mk_list "EasyPrivacy" easyprivacy_url true [])];
  site_shields := ∅;
  compiled_rules := ∅;
  global_stats := stats_zero |}.

(** ** Lemmas on the scan *)

Section ScanLemmas.

Variable regex_is_match : string -> string -> bool.

Lemma scan_lists_flat e u rt od ls :
  scan_lists regex_is_match e u rt od ls
  = scan_rules regex_is_match e u rt od
      (flat_map (fun '(_, fl) => if enabled fl then rules fl else []) ls).
Proof.
  induction ls as [|[k fl] ls IH]; [reflexivity|]. simpl.
  destruct (enabled fl); simpl; [|exact IH].
  induction (rules fl) as [|r rs IHr]; simpl; [exact IH|].
  destruct (matches_rule _ _ _ _ _ _); [destruct (rule_type r)|]; auto.
Qed.

Lemma scan_rules_app e u rt od pre post :
  scan_rules regex_is_match e u rt od (pre ++ post)
  = match scan_rules regex_is_match e u rt od pre with
    | Some b => Some b
    | None => scan_rules regex_is_match e u rt od post
    end.
Proof.
  induction pre as [|r pre IH]; [reflexivity|]. simpl.
  destruct (matches_rule _ _ _ _ _ _); [destruct (rule_type r)|]; auto.
Qed.


Lemma matches_rule_compiled e1 e2 u r rt od :
  compiled_rules e1 = compiled_rules e2 ->
  matches_rule regex_is_match e1 u r rt od = matches_rule regex_is_match e2 u r rt od.
Proof. intros H. unfold matches_rule. rewrite H. reflexivity. Qed.

Lemma scan_rules_compiled e1 e2 u rt od rs :
  compiled_rules e1 = compiled_rules e2 ->
  scan_rules regex_is_match e1 u rt od rs = scan_rules regex_is_match e2 u rt od rs.
Proof.
  intros H. induction rs as [|r rs IH]; [reflexivity|]. simpl.
  rewrite (matches_rule_compiled e1 e2 u r rt od H), IH. reflexivity.
Qed.

Lemma scan_lists_compiled e1 e2 u rt od ls :
  compiled_rules e1 = compiled_rules e2 ->
  scan_lists regex_is_match e1 u rt od ls = scan_lists regex_is_match e2 u rt od ls.
Proof.
  intros H. induction ls as [|[k fl] ls IH]; [reflexivity|]. simpl.
  rewrite (scan_rules_compiled e1 e2 u rt od (rules fl) H), IH. reflexivity.
Qed.

(** A list entry whose own first decisive match, if any, answers [b]. *)
Definition agrees_with (e : FilterEngine) (u rt od : string) (b : bool)
    (entry : string * FilterList) : Prop :=
  enabled entry.2 = true ->
  scan_rules regex_is_match e u rt od (rules entry.2) = None
  \/ scan_rules regex_is_match e u rt od (rules entry.2) = Some b.

Lemma scan_lists_perm e u rt od b ls1 ls2 :
  ls1 ≡ₚ ls2 ->
  Forall (agrees_with e u rt od b) ls1 ->
  scan_lists regex_is_match e u rt od ls1 = scan_lists regex_is_match e u rt od ls2.
Proof.
  induction 1 as [|[k fl] l1 l2 Hp IH|[k1 fl1] [k2 fl2] l|l1 l2 l3 H12 IH12 H23 IH23];
    intros Hall.
  - reflexivity.
  - inversion Hall as [|? ? Hx Hl]; subst. simpl. rewrite (IH Hl). reflexivity.
  - inversion Hall as [|? ? H2 Hall']; subst. inversion Hall' as [|? ? H1 _]; subst.
    unfold agrees_with in H1, H2; simpl in H1, H2. simpl.
    destruct (enabled fl1), (enabled fl2); simpl; try reflexivity.
    destruct (H1 eq_refl) as [E1|E1], (H2 eq_refl) as [E2|E2];
      rewrite E1, E2; reflexivity.
  - rewrite (IH12 Hall). apply IH23.
    apply Forall_forall. intros x Hx. rewrite Forall_forall in Hall.
    apply Hall. rewrite H12. exact Hx.
Qed.

End ScanLemmas.

(** ** Fixtures for the claims *)

Definition shields_with_third_party (d : string) : SiteShields := {|
  domain := d; ad_blocking := true; tracker_blocking := true;
  third_party_cookies := true; fingerprinting_protection := true; https_only := true;
  scripts_blocked := 0; trackers_blocked := 0; ads_blocked := 0; last_updated := 0 |}.

Definition tracker_allow : FilterRule := mk_rule "tracker.com" Allow.

(** An origin with [third_party_cookies] on, and an [Allow] rule that
    matches a cross-domain request from it. *)
Definition engine_third_party : FilterEngine := {|
  filter_lists := [("easylist", mk_list "EasyList" easylist_url true [tracker_allow])];
  site_shields := {[ "news.example" := shields_with_third_party "news.example" ]};
  compiled_rules := ∅;
  global_stats := stats_zero |}.

Definition ads_allow : FilterRule := mk_rule "ads.example.com" Allow.
Definition ads_block : FilterRule := mk_rule "ads.example.com" Block.

Definition list_blocking : FilterList := mk_list "EasyList" easylist_url true [ads_block].
Definition list_allowing : FilterList := mk_list "EasyPrivacy" easyprivacy_url true [ads_allow].

(** The same two map entries, in the two iteration orders. *)
Definition engine_block_first : FilterEngine := {|
  filter_lists := [("easylist", list_blocking); ("easyprivacy", list_allowing)];
  site_shields := ∅; compiled_rules := ∅; global_stats := stats_zero |}.

Definition engine_allow_first : FilterEngine := {|
  filter_lists := [("easyprivacy", list_allowing); ("easylist", list_blocking)];
  site_shields := ∅; compiled_rules := ∅; global_stats := stats_zero |}.

(** Two enabled lists that both block the request, in both orders. *)
Definition engine_new_blocking : FilterEngine := {|
  filter_lists := [("easylist", list_blocking);
                   ("easyprivacy", mk_list "EasyPrivacy" easyprivacy_url true
                                     [mk_rule "example.com" Hide; ads_block])];
  site_shields := ∅; compiled_rules := ∅; global_stats := stats_zero |}.

Definition engine_new_blocking_swapped : FilterEngine := {|
  filter_lists := [("easyprivacy", mk_list "EasyPrivacy" easyprivacy_url true
                                     [mk_rule "example.com" Hide; ads_block]);
                   ("easylist", list_blocking)];
  site_shields := ∅; compiled_rules := ∅; global_stats := stats_zero |}.

Definition ads_url : string := "https://ads.example.com/banner.js".

(** ** C1: rule precedence *)




(** ** C2: scan order *)

(** C2 (counterexample): two engines holding the same two map entries,
    met in the two iteration orders a hash map can give them, answer the
    same request differently. *)
Lemma C2_counterexample :
  filter_lists engine_block_first ≡ₚ filter_lists engine_allow_first /\
  site_shields engine_block_first = site_shields engine_allow_first /\
  compiled_rules engine_block_first = compiled_rules engine_allow_first /\
  global_stats engine_block_first = global_stats engine_allow_first /\
  should_block_request url_domain_http no_regex engine_block_first ads_url
    "script" "news.example" = true /\
  should_block_request url_domain_http no_regex engine_allow_first ads_url
    "script" "news.example" = false.
Proof.
  split; [apply perm_swap|].
  vm_compute. repeat split.
Qed.

(** C2 (amended): the scan order is the filter-list map's iteration order
    (then rule order within a list); a given engine, order included,
    always gives the same answer, but the order is not fixed by the map's
    contents. The answer does not depend on that order when every enabled
    list's own first decisive match, if it has one, gives the same answer. *)
Theorem should_block_order_independent url_domain regex_is_match e1 e2 u rt od b :
  filter_lists e1 ≡ₚ filter_lists e2 ->
  site_shields e1 = site_shields e2 ->
  compiled_rules e1 = compiled_rules e2 ->
  (forall k fl, In (k, fl) (filter_lists e1) -> enabled fl = true ->
     scan_rules regex_is_match e1 u rt od (rules fl) = None
     \/ scan_rules regex_is_match e1 u rt od (rules fl) = Some b) ->
  should_block_request url_domain regex_is_match e1 u rt od
  = should_block_request url_domain regex_is_match e2 u rt od.
Proof.
  intros Hp Hs Hc Hagree. unfold should_block_request.
  assert (Hscan : scan_lists regex_is_match e1 u rt od (filter_lists e1)
                  = scan_lists regex_is_match e2 u rt od (filter_lists e2)).
  { rewrite (scan_lists_perm regex_is_match e1 u rt od b _ _ Hp).
    - apply scan_lists_compiled. exact Hc.
    - apply Forall_forall. intros [k fl] Hin. unfold agrees_with. simpl. apply (Hagree k fl). apply list_elem_of_In. exact Hin. }
  rewrite Hs, Hscan. reflexivity.
Qed.

(** Witness: both iteration orders of two lists that block the same
    request answer alike. *)
Lemma should_block_order_independent_witness :
  should_block_request url_domain_http no_regex engine_new_blocking ads_url
    "script" "news.example"
  = should_block_request url_domain_http no_regex engine_new_blocking_swapped ads_url
    "script" "news.example".
Proof.
  apply (should_block_order_independent url_domain_http no_regex
           engine_new_blocking engine_new_blocking_swapped ads_url "script" "news.example" true).
  - apply perm_swap.
  - reflexivity.
  - reflexivity.
  - intros k fl Hin _. simpl in Hin.
    destruct Hin as [Hin|[Hin|[]]]; injection Hin as <- <-; right; vm_compute; reflexivity.
Defined.

(** ** C3: fail-open on an unparsable URL *)

(** C3: when [Url::parse] fails, [should_block] is false whatever the
    request type, origin, rules and shields. *)
Theorem should_block_fail_open url_domain regex_is_match e u rt od :
  url_domain u = None ->
  should_block_request url_domain regex_is_match e u rt od = false.
Proof. intros H. unfold should_block_request. rewrite H. reflexivity. Qed.

Lemma should_block_fail_open_witness :
  url_domain_http "not a url" = None /\
  should_block_request url_domain_http no_regex engine_block_first "not a url"
    "script" "news.example" = false.
Proof.
  split; [reflexivity|].
  apply should_block_fail_open. reflexivity.
Defined.

(** ** C4: third-party heuristic *)

(** C4: when the origin's shields entry has [third_party_cookies] on and
    blocking not fully off, a request to another domain is blocked before
    the scan: the answer is true whatever filter lists the engine holds. *)
Theorem should_block_third_party url_domain regex_is_match e u rt od d0 sh :
  url_domain u = Some d0 ->
  site_shields e !! od = Some sh ->
  third_party_cookies sh = true ->
  (ad_blocking sh || tracker_blocking sh) = true ->
  default "" d0 <> od ->
  should_block_request url_domain regex_is_match e u rt od = true /\
  (forall ls, should_block_request url_domain regex_is_match (set_engine_lists e ls)
                u rt od = true).
Proof.
  intros Hu Hl Hc Hab Hne.
  assert (Hoff : negb (ad_blocking sh) && negb (tracker_blocking sh) = false).
  { destruct (ad_blocking sh), (tracker_blocking sh); try reflexivity; discriminate. }
  assert (Hneq : String.eqb (default "" d0) od = false).
  { apply String.eqb_neq. exact Hne. }
  split; [|intros ls]; unfold should_block_request; simpl; rewrite Hu, Hl, Hoff, Hc, Hneq;
    reflexivity.
Qed.

Lemma should_block_third_party_witness :
  should_block_request url_domain_http no_regex engine_third_party
    "https://cdn.other.net/x.js" "script" "news.example" = true.
Proof.
  apply (should_block_third_party url_domain_http no_regex engine_third_party
           "https://cdn.other.net/x.js" "script" "news.example" (Some "cdn.other.net")
           (shields_with_third_party "news.example")).
  - reflexivity.
  - vm_compute. reflexivity.
  - reflexivity.
  - reflexivity.
  - intros H. discriminate H.
Defined.

(** ** C5: resource-type gating *)

Definition with_options (r : FilterRule) (o : FilterOptions) : FilterRule :=
  {| pattern := pattern r; rule_type := rule_type r; domains := domains r;
     exceptions := exceptions r; options := o |}.

(** The flag of [FilterOptions] that the [match request_type] of
    [matches_rule] reads for a request type, if any. *)
Definition recognized_flag (rt : string) : option (FilterOptions -> bool) :=
  if String.eqb rt "script" then Some script
  else if String.eqb rt "image" then Some image
  else if String.eqb rt "stylesheet" then Some stylesheet
  else if String.eqb rt "xmlhttprequest" then Some xmlhttprequest
  else if String.eqb rt "subdocument" then Some subdocument
  else None.

Definition popup_off : FilterRule :=
  with_options ads_block {|
    script := true; image := true; stylesheet := true; xmlhttprequest := true;
    subdocument := true; third_party := false; popup := false |}.

Definition engine_popup_rule : FilterEngine := {|
  filter_lists := [("easylist", mk_list "EasyList" easylist_url true [popup_off])];
  site_shields := ∅; compiled_rules := ∅; global_stats := stats_zero |}.

Definition image_off : FilterRule :=
  with_options ads_block {|
    script := true; image := false; stylesheet := true; xmlhttprequest := true;
    subdocument := true; third_party := true; popup := true |}.

(** C5 (counterexample): a rule whose [popup] and [third_party] flags are
    false still matches, and blocks, requests of type ["popup"] and
    ["third_party"]. *)
Lemma C5_counterexample :
  popup (options popup_off) = false /\ third_party (options popup_off) = false /\
  matches_rule no_regex engine_popup_rule ads_url popup_off "popup" "news.example" = true /\
  matches_rule no_regex engine_popup_rule ads_url popup_off "third_party" "news.example" = true /\
  should_block_request url_domain_http no_regex engine_popup_rule ads_url
    "popup" "news.example" = true.
Proof. vm_compute. repeat split. Qed.

(** C5 (amended): for the five request types [matches_rule] recognises
    (script, image, stylesheet, xmlhttprequest, subdocument), a rule whose
    flag for the type is false never matches it and so can be dropped from
    any scan without changing the answer; for any other type string the
    type dimension passes: the rule matches exactly when its pattern, its
    [domains] and its [exceptions] let it, and its flags are not read; and the
    [popup] and [third_party] flags are never read. *)
Theorem resource_type_gating regex_is_match e u r rt od :
  (forall f, recognized_flag rt = Some f -> f (options r) = false ->
     matches_rule regex_is_match e u r rt od = false /\
     (forall pre post, scan_rules regex_is_match e u rt od (pre ++ r :: post)
                       = scan_rules regex_is_match e u rt od (pre ++ post))) /\
  (recognized_flag rt = None ->
     matches_rule regex_is_match e u r rt od
     = (match compiled_rules e !! pattern r with
        | Some regex => regex_is_match regex u
        | None => contains u (pattern r)
        end &&
        match domains r with Some ds => vec_contains ds od | None => true end &&
        negb match exceptions r with Some xs => vec_contains xs od | None => false end) /\
     forall o,
     matches_rule regex_is_match e u r rt od
     = matches_rule regex_is_match e u (with_options r o) rt od) /\
  (forall o, script o = script (options r) -> image o = image (options r) ->
     stylesheet o = stylesheet (options r) ->
     xmlhttprequest o = xmlhttprequest (options r) ->
     subdocument o = subdocument (options r) ->
     matches_rule regex_is_match e u r rt od
     = matches_rule regex_is_match e u (with_options r o) rt od).
Proof.
  split; [|split].
  - intros f Hf Hoff.
    assert (Hm : matches_rule regex_is_match e u r rt od = false).
    { unfold recognized_flag in Hf. unfold matches_rule.
      destruct (negb _); [reflexivity|].
      destruct (match domains r with Some ds => _ | None => _ end); [reflexivity|].
      destruct (match exceptions r with Some xs => _ | None => _ end); [reflexivity|].
      destruct (String.eqb rt "script");
        [injection Hf as <-; exact Hoff|].
      destruct (String.eqb rt "image");
        [injection Hf as <-; exact Hoff|].
      destruct (String.eqb rt "stylesheet");
        [injection Hf as <-; exact Hoff|].
      destruct (String.eqb rt "xmlhttprequest");
        [injection Hf as <-; exact Hoff|].
      destruct (String.eqb rt "subdocument");
        [injection Hf as <-; exact Hoff|].
      discriminate Hf. }
    split; [exact Hm|].
    intros pre post. rewrite !scan_rules_app. simpl. rewrite Hm. reflexivity.
  - intros Hnone. unfold recognized_flag in Hnone. unfold matches_rule. simpl.
    destruct (String.eqb rt "script"); [discriminate|].
    destruct (String.eqb rt "image"); [discriminate|].
    destruct (String.eqb rt "stylesheet"); [discriminate|].
    destruct (String.eqb rt "xmlhttprequest"); [discriminate|].
    destruct (String.eqb rt "subdocument"); [discriminate|].
    split; [|reflexivity].
    destruct (match compiled_rules e !! pattern r with
              | Some regex => regex_is_match regex u
              | None => contains u (pattern r) end); [|reflexivity].
    destruct (domains r) as [ds|]; [destruct (vec_contains ds od)|]; simpl;
      try reflexivity;
      destruct (exceptions r) as [xs|]; try destruct (vec_contains xs od); reflexivity.
  - intros o H1 H2 H3 H4 H5. unfold matches_rule. simpl.
    rewrite H1, H2, H3, H4, H5. reflexivity.
Qed.

Lemma resource_type_gating_witness :
  matches_rule no_regex engine_popup_rule ads_url image_off "image" "news.example" = false /\
  matches_rule no_regex engine_popup_rule ads_url popup_off "document" "news.example"
  = (contains ads_url (pattern popup_off) && true && negb false) /\
  matches_rule no_regex engine_popup_rule ads_url popup_off "document" "news.example"
  = matches_rule no_regex engine_popup_rule ads_url
      (with_options popup_off FilterOptions_default) "document" "news.example" /\
  matches_rule no_regex engine_popup_rule ads_url popup_off "script" "news.example"
  = matches_rule no_regex engine_popup_rule ads_url ads_block "script" "news.example".
Proof.
  split; [|split; [|split]].
  - apply (proj1 (proj1 (resource_type_gating no_regex engine_popup_rule ads_url image_off
                            "image" "news.example") image eq_refl eq_refl)).
  - apply (proj1 (proj1 (proj2 (resource_type_gating no_regex engine_popup_rule ads_url
                                  popup_off "document" "news.example")) eq_refl)).
  - apply (proj2 (proj1 (proj2 (resource_type_gating no_regex engine_popup_rule ads_url
                                  popup_off "document" "news.example")) eq_refl)).
  - apply (proj2 (proj2 (resource_type_gating no_regex engine_popup_rule ads_url popup_off
                            "script" "news.example")) FilterOptions_default);
      reflexivity.
Defined.

(** ** C6: per-domain and global counters move together *)

Definition domain_counter (block_type : string) (s : SiteShields) : Z :=
  if String.eqb block_type "ad" then ads_blocked s
  else if String.eqb block_type "tracker" then trackers_blocked s
  else scripts_blocked s.

Definition global_counter (block_type : string) (g : GlobalStats) : Z :=
  if String.eqb block_type "ad" then total_ads_blocked g
  else if String.eqb block_type "tracker" then total_trackers_blocked g
  else total_scripts_blocked g.

(** C6: for a category among ad, tracker and script, an increment on a
    domain with a shields entry bumps that entry's counter (u32) and the
    global counter (u64) of the category together; on a domain without an
    entry the engine is returned unchanged. *)
Theorem increment_both_or_neither now e d block_type :
  In block_type ["ad"; "tracker"; "script"] ->
  (forall sh, site_shields e !! d = Some sh ->
     let e' := increment_blocked_count now e d block_type in
     exists sh', site_shields e' !! d = Some sh' /\
       domain_counter block_type sh' = incr_u32 (domain_counter block_type sh) /\
       global_counter block_type (global_stats e')
       = incr_u64 (global_counter block_type (global_stats e))) /\
  (site_shields e !! d = None -> increment_blocked_count now e d block_type = e).
Proof.
  intros Hin. split.
  - intros sh Hl. unfold increment_blocked_count. rewrite Hl.
    destruct Hin as [<-|[<-|[<-|[]]]]; cbn -[incr_u32 incr_u64];
      eexists; rewrite lookup_insert_eq; repeat split.
  - intros Hl. unfold increment_blocked_count. rewrite Hl. reflexivity.
Qed.

Definition engine_shielded : FilterEngine :=
  update_site_shields (engine_new 0) "news.example"
    (with_shields_domain (SiteShields_default 0) "news.example").

Lemma increment_both_or_neither_witness :
  exists sh', site_shields (increment_blocked_count 5 engine_shielded "news.example" "ad")
                !! "news.example" = Some sh' /\
    domain_counter "ad" sh' = incr_u32 0%Z /\
    global_counter "ad" (global_stats (increment_blocked_count 5 engine_shielded
                                         "news.example" "ad")) = incr_u64 0%Z.
Proof.
  apply (proj1 (increment_both_or_neither 5 engine_shielded "news.example" "ad"
                  (or_introl eq_refl))
           (with_shields_domain (SiteShields_default 0) "news.example")).
  vm_compute. reflexivity.
Defined.

(** The scenario of the spec: three ad and two tracker increments on a
    domain with an entry. *)
Example increment_scenario :
  let inc bt e := increment_blocked_count 1 e "news.example" bt in
  let e := inc "tracker" (inc "tracker" (inc "ad" (inc "ad" (inc "ad" engine_shielded)))) in
  total_ads_blocked (global_stats e) = 3%Z /\ total_trackers_blocked (global_stats e) = 2%Z.
Proof. vm_compute. split; reflexivity. Qed.

(** ** C7: defaults synthesised by [get_site_shields] *)

(** C7: for a domain with no entry, [get_site_shields] returns the
    default shields (blocking, fingerprinting protection and HTTPS-only on,
    third-party cookies off, counters zero) under that domain, and the
    engine, registry included, is unchanged: no entry is inserted. *)
Theorem get_site_shields_default now e d :
  site_shields e !! d = None ->
  let '(e', s) := get_site_shields now e d in
  e' = e /\ site_shields e' !! d = None /\
  domain s = d /\ ad_blocking s = true /\ tracker_blocking s = true /\
  third_party_cookies s = false /\ fingerprinting_protection s = true /\
  https_only s = true /\ scripts_blocked s = 0%Z /\ trackers_blocked s = 0%Z /\
  ads_blocked s = 0%Z.
Proof.
  intros Hl. unfold get_site_shields. rewrite Hl.
  repeat split.
Qed.

Lemma get_site_shields_default_witness :
  let '(e', s) := get_site_shields 3 engine_shielded "example.org" in
  e' = engine_shielded /\ site_shields e' !! "example.org" = None /\
  domain s = "example.org" /\ ad_blocking s = true /\ tracker_blocking s = true /\
  third_party_cookies s = false /\ fingerprinting_protection s = true /\
  https_only s = true /\ scripts_blocked s = 0%Z /\ trackers_blocked s = 0%Z /\
  ads_blocked s = 0%Z.
Proof.
  apply (get_site_shields_default 3 engine_shielded "example.org").
  vm_compute. reflexivity.
Defined.

(** ** Refresh: each list on its own *)

Lemma refresh_lists_lookup net clock n ls i :
  refresh_lists net clock n ls !! i
  = (fun '(k, fl) =>
       (k, match net (n + i) (url fl) with
           | Some content => with_list_rules fl (parse_filter_rules content) (clock (n + i))
           | None => fl
           end)) <$> ls !! i.
Proof.
  revert n i. induction ls as [|[k fl] ls IH]; intros n i; [reflexivity|].
  destruct i as [|i]; simpl.
  - rewrite Nat.add_0_r. reflexivity.
  - rewrite IH. rewrite Nat.add_succ_r. reflexivity.
Qed.

Lemma length_refresh_lists net clock n ls :
  length (refresh_lists net clock n ls) = length ls.
Proof.
  revert n. induction ls as [|[k fl] ls IH]; intros n; simpl; [reflexivity|].
  rewrite IH. reflexivity.
Qed.

(** X16: [update_filter_lists] returns [Ok], keeps every list under its
    key and position, and treats each list on its own: the list met [i]-th
    is replaced by the parse of its body, stamped with the clock, when
    [reqwest::get] and [.text()] both return [Ok], and is left exactly as it
    was (rules and [last_updated]) when either returns [Err], whatever
    happened to the others. *)
Theorem refresh_failure_isolation net clock e i k fl :
  filter_lists e !! i = Some (k, fl) ->
  let '(e', res) := update_filter_lists net clock e in
  res = Ok tt /\
  length (filter_lists e') = length (filter_lists e) /\
  filter_lists e' !! i
  = Some (k, match net i (url fl) with
             | Some content => with_list_rules fl (parse_filter_rules content) (clock i)
             | None => fl
             end) /\
  (net i (url fl) = None ->
     exists fl', filter_lists e' !! i = Some (k, fl') /\
       rules fl' = rules fl /\ list_last_updated fl' = list_last_updated fl).
Proof.
  intros Hl. unfold update_filter_lists. simpl.
  rewrite refresh_lists_lookup, Hl, length_refresh_lists. simpl.
  split; [reflexivity|]. split; [reflexivity|]. split; [reflexivity|].
  intros Hnet. rewrite Hnet. exists fl. auto.
Qed.

(** The first fetch fails, the second succeeds. *)
Definition net_first_fails (i : nat) (_ : string) : option string :=
  match i with 0 => None | _ => Some "ads.example.com" end.

Lemma refresh_failure_isolation_witness :
  let '(e', res) := update_filter_lists net_first_fails (fun _ => 9%Z) engine_block_first in
  res = Ok tt /\
  length (filter_lists e') = length (filter_lists engine_block_first) /\
  filter_lists e' !! 0 = Some ("easylist", list_blocking) /\
  (net_first_fails 0 easylist_url = None ->
     exists fl', filter_lists e' !! 0 = Some ("easylist", fl') /\
       rules fl' = rules list_blocking /\
       list_last_updated fl' = list_last_updated list_blocking).
Proof.
  apply (refresh_failure_isolation net_first_fails (fun _ => 9%Z) engine_block_first 0
           "easylist" list_blocking).
  reflexivity.
Defined.

(** The other list of the same refresh was updated. *)
Example refresh_second_list_updated :
  filter_lists (fst (update_filter_lists net_first_fails (fun _ => 9%Z) engine_block_first))
    !! 1 = Some ("easyprivacy", with_list_rules list_allowing [ads_block] 9%Z).
Proof. vm_compute. reflexivity. Qed.

(** ** C8: HTTP error responses *)

(** The exchanges of one refresh as the HTTP layer sees them:
    [http i u] is [None] when [reqwest::get(u)] returns [Err] (DNS,
    connection, TLS, ...); otherwise the response's status code and the
    outcome of [.text()] ([None] for [Err]). [reqwest::get] returns [Ok]
    for every status, 4xx and 5xx included, and the loop never reads the
    status: the body it hands to the parser is what [http_net] gives. *)
Definition http_net (http : nat -> string -> option (Z * option string))
    : nat -> string -> option string :=
  fun i u => match http i u with
             | Some (_, body) => body
             | None => None
             end.

(** The first list's server answers [404 Not Found], the second [200]. *)
Definition http_404_first (i : nat) (_ : string) : option (Z * option string) :=
  match i with
  | 0 => Some (404%Z, Some "Not Found")
  | _ => Some (200%Z, Some "ads.example.com")
  end.

(** C8 (failing input): the fetch of [easylist] fails with HTTP 404; the
    refresh still replaces its rules by the parse of the error page, a
    single [Block("Not Found")] rule, and stamps its [last_updated]: the
    stale-but-valid rules are lost. *)
Theorem update_filter_lists_installs_error_page :
  let e' := fst (update_filter_lists (http_net http_404_first) (fun _ => 9%Z)
                   engine_block_first) in
  http_404_first 0 easylist_url = Some (404%Z, Some "Not Found") /\
  filter_lists engine_block_first !! 0 = Some ("easylist", list_blocking) /\
  exists fl', filter_lists e' !! 0 = Some ("easylist", fl') /\
    rules fl' = [mk_rule "Not Found" Block] /\ rules fl' <> rules list_blocking /\
    list_last_updated fl' = 9%Z /\ list_last_updated fl' <> list_last_updated list_blocking.
Proof.
  split; [reflexivity|split; [reflexivity|]].
  eexists. split; [vm_compute; reflexivity|].
  vm_compute. repeat split; discriminate.
Qed.

(** ** C9: refresh scope *)

Definition engine_disabled_list : FilterEngine := {|
  filter_lists := [("easyprivacy", mk_list "EasyPrivacy" easyprivacy_url false [])];
  site_shields := ∅; compiled_rules := ∅; global_stats := stats_zero |}.

Definition net_all_ok (_ : nat) (_ : string) : option string := Some "ads.example.com".

(** C9 (failing input): a disabled list is fetched and repopulated too;
    its rules and [last_updated] change. *)
Theorem update_filter_lists_refreshes_disabled :
  filter_lists engine_disabled_list
    = [("easyprivacy", mk_list "EasyPrivacy" easyprivacy_url false [])] /\
  filter_lists (fst (update_filter_lists net_all_ok (fun _ => 9%Z) engine_disabled_list))
    = [("easyprivacy", {| name := "EasyPrivacy"; url := easyprivacy_url; enabled := false;
                         list_last_updated := 9%Z; rules := [ads_block] |})].
Proof. split; vm_compute; reflexivity. Qed.

(** ** C10: the line parser *)

(** C10 (failing input): the scenario of the spec parses as described,
    but an ["@@"] inside a line is removed as well as a leading one:
    ["a@@b.com"] gives the pattern ["ab.com"], not ["a@@b.com"]. *)
Theorem parse_filter_rules_removes_inner_atat :
  parse_filter_rules "! comment

ads.doubleclick.net
@@allowlisted.com
tracker.io##.banner"
  = [mk_rule "ads.doubleclick.net" Block; mk_rule "allowlisted.com" Allow;
     mk_rule "tracker.io##.banner" Hide] /\
  parse_filter_rules "a@@b.com" = [mk_rule "ab.com" Block] /\
  parse_filter_rules "@@a@@b.com$script" = [mk_rule "ab.com" Allow].
Proof. repeat split; vm_compute; reflexivity. Qed.

(** * Further properties of the engine *)

(** ** Construction and reachable states *)

(** [self.filter_lists] after [load_default_filter_lists]; [t1] and [t2]
    are the two [Utc::now()] readings. *)
Definition default_filter_lists (t1 t2 : Z) : list (string * FilterList) :=
  [("easylist", {| name := "EasyList"; url := easylist_url; enabled := true;
                   list_last_updated := t1; rules := [] |});
   ("easyprivacy", {| name := "EasyPrivacy"; url := easyprivacy_url; enabled := true;
                      list_last_updated := t2; rules := [] |})].

(** [FilterEngine::new()]: [ls] is the iteration order of the map holding
    the two default entries (a permutation of [default_filter_lists]);
    [GlobalStats::default()] has zero counters and the epoch as [last_reset]. *)
Definition FilterEngine_new (ls : list (string * FilterList)) : FilterEngine := {|
  filter_lists := ls; site_shields := ∅; compiled_rules := ∅; global_stats := stats_zero |}.

(** The states of the process-wide [FILTER_ENGINE]: built by [new()], then
    changed only by the mutating commands [update_site_shields],
    [update_filter_lists] and by [increment_blocked_count] (the other
    commands only read it). *)
Inductive reachable : FilterEngine -> Prop :=
  | reach_new t1 t2 ls :
      ls ≡ₚ default_filter_lists t1 t2 -> reachable (FilterEngine_new ls)
  | reach_update_shields e d sh :
      reachable e -> reachable (update_site_shields e d sh)
  | reach_increment now e d bt :
      reachable e -> reachable (increment_blocked_count now e d bt)
  | reach_refresh net clock e :
      reachable e -> reachable (fst (update_filter_lists net clock e)).

(** The flags of a shields entry that [should_block_request] reads. *)
Definition shield_flags (s : SiteShields) : bool * bool * bool :=
  (ad_blocking s, tracker_blocking s, third_party_cookies s).

Definition is_decisive (r : FilterRule) : bool :=
  match rule_type r with Block | Allow => true | _ => false end.

(** The engine with every [Hide] and [Redirect] rule taken out of its lists. *)
Definition drop_non_decisive (e : FilterEngine) : FilterEngine :=
  set_engine_lists e
    (map (fun '(k, fl) => (k, with_list_rules fl (List.filter is_decisive (rules fl))
                                 (list_last_updated fl)))
         (filter_lists e)).

(** ** Lemmas *)

Lemma should_block_congr url_domain regex_is_match e1 e2 u rt od :
  filter_lists e1 = filter_lists e2 ->
  compiled_rules e1 = compiled_rules e2 ->
  shield_flags <$> site_shields e1 !! od = shield_flags <$> site_shields e2 !! od ->
  should_block_request url_domain regex_is_match e1 u rt od
  = should_block_request url_domain regex_is_match e2 u rt od.
Proof.
  intros Hl Hc Hs. unfold should_block_request.
  rewrite (scan_lists_compiled regex_is_match e1 e2 u rt od _ Hc), Hl.
  destruct (site_shields e1 !! od) as [s1|], (site_shields e2 !! od) as [s2|];
    simpl in Hs; try discriminate; [|reflexivity].
  injection Hs as Ha Ht Hc'. rewrite Ha, Ht, Hc'. reflexivity.
Qed.

Lemma increment_shape now e d bt :
  let e' := increment_blocked_count now e d bt in
  filter_lists e' = filter_lists e /\ compiled_rules e' = compiled_rules e /\
  bandwidth_saved (global_stats e') = bandwidth_saved (global_stats e) /\
  last_reset (global_stats e') = last_reset (global_stats e) /\
  (forall d', d' <> d -> site_shields e' !! d' = site_shields e !! d') /\
  shield_flags <$> site_shields e' !! d = shield_flags <$> site_shields e !! d.
Proof.
  cbv zeta. unfold increment_blocked_count.
  case_eq (site_shields e !! d); [intros sh Hl|intros Hl; repeat split; auto; rewrite Hl; reflexivity].
  destruct (String.eqb bt "ad"); [|destruct (String.eqb bt "tracker");
    [|destruct (String.eqb bt "script")]];
    simpl; (repeat split; [intros d' Hne; rewrite lookup_insert_ne; auto
                          |rewrite lookup_insert_eq; reflexivity]).
Qed.

Lemma scan_rules_true_block regex_is_match e u rt od rs :
  scan_rules regex_is_match e u rt od rs = Some true ->
  exists r, In r rs /\ rule_type r = Block /\ matches_rule regex_is_match e u r rt od = true.
Proof.
  induction rs as [|r rs IH]; simpl; [discriminate|].
  destruct (matches_rule _ _ _ _ _ _) eqn:Hm.
  - destruct (rule_type r) eqn:Hk; try discriminate;
      try (intros H; destruct (IH H) as (r' & ? & ? & ?); exists r'; auto).
    intros _. exists r. auto.
  - intros H. destruct (IH H) as (r' & ? & ? & ?). exists r'. auto.
Qed.

Lemma scan_rules_filter_decisive regex_is_match e u rt od rs :
  scan_rules regex_is_match e u rt od (List.filter is_decisive rs)
  = scan_rules regex_is_match e u rt od rs.
Proof.
  induction rs as [|r rs IH]; [reflexivity|]. simpl.
  destruct (is_decisive r) eqn:Hd; simpl; unfold is_decisive in Hd.
  - destruct (matches_rule _ _ _ _ _ _); [|exact IH].
    destruct (rule_type r); try discriminate; reflexivity.
  - destruct (matches_rule _ _ _ _ _ _); [destruct (rule_type r); try discriminate|]; exact IH.
Qed.

(** A rule that does not match is never decisive: dropping it from a rule
    sequence leaves the scan unchanged. *)
Lemma scan_rules_drop_nonmatching regex_is_match e u rt od r pre post :
  matches_rule regex_is_match e u r rt od = false ->
  scan_rules regex_is_match e u rt od (pre ++ r :: post)
  = scan_rules regex_is_match e u rt od (pre ++ post).
Proof. intros Hm. rewrite !scan_rules_app. simpl. rewrite Hm. reflexivity. Qed.

(** ** Site-shield registry *)

(** X1: reading a domain after [update_site_shields] gives the stored
    shields for that domain and what was read before for any other. *)
Theorem get_after_update now e d sh d' :
  snd (get_site_shields now (update_site_shields e d sh) d')
  = if String.eqb d' d then sh else snd (get_site_shields now e d').
Proof.
  unfold get_site_shields, update_site_shields. simpl.
  destruct (String.eqb_spec d' d) as [->|Hne].
  - rewrite lookup_insert_eq. reflexivity.
  - rewrite lookup_insert_ne by congruence. reflexivity.
Qed.

(** X2: storing shields with both [ad_blocking] and [tracker_blocking]
    off for an origin makes every request from that origin unblocked,
    whatever the lists, the URL and the other flags. *)
Theorem shields_off_never_block url_domain regex_is_match e od sh u rt :
  ad_blocking sh = false -> tracker_blocking sh = false ->
  should_block_request url_domain regex_is_match (update_site_shields e od sh) u rt od = false.
Proof.
  intros Ha Ht. unfold should_block_request, update_site_shields. simpl.
  destruct (url_domain u); [|reflexivity].
  rewrite lookup_insert_eq, Ha, Ht. reflexivity.
Qed.

Definition shields_all_off : SiteShields := {|
  domain := "news.example"; ad_blocking := false; tracker_blocking := false;
  third_party_cookies := true; fingerprinting_protection := true; https_only := true;
  scripts_blocked := 0; trackers_blocked := 0; ads_blocked := 0; last_updated := 0 |}.

Lemma shields_off_never_block_witness :
  should_block_request url_domain_http no_regex
    (update_site_shields engine_block_first "news.example" shields_all_off)
    ads_url "script" "news.example" = false.
Proof. apply shields_off_never_block; reflexivity. Defined.

(** ** Counters *)

(** X3: counting a blocked request never changes a later blocking
    decision: after [increment_blocked_count], [should_block_request]
    answers every request as before. *)
Theorem increment_keeps_decisions url_domain regex_is_match now e d bt u rt od :
  should_block_request url_domain regex_is_match (increment_blocked_count now e d bt) u rt od
  = should_block_request url_domain regex_is_match e u rt od.
Proof.
  destruct (increment_shape now e d bt) as (Hl & Hc & _ & _ & Hother & Hd).
  apply should_block_congr; [exact Hl|exact Hc|].
  destruct (String.eqb_spec od d) as [->|Hne]; [exact Hd|].
  rewrite (Hother od Hne). reflexivity.
Qed.

(** X4: [increment_blocked_count] touches only the entry of its domain
    and the three global counters: every other domain's entry, the filter
    lists, the compiled patterns, [bandwidth_saved] and [last_reset] are
    unchanged, and the entry keeps its protection flags. *)
Theorem increment_frame now e d bt :
  let e' := increment_blocked_count now e d bt in
  filter_lists e' = filter_lists e /\ compiled_rules e' = compiled_rules e /\
  bandwidth_saved (global_stats e') = bandwidth_saved (global_stats e) /\
  last_reset (global_stats e') = last_reset (global_stats e) /\
  (forall d', d' <> d -> site_shields e' !! d' = site_shields e !! d') /\
  shield_flags <$> site_shields e' !! d = shield_flags <$> site_shields e !! d.
Proof. exact (increment_shape now e d bt). Qed.

(** X5: a category other than ad, tracker and script changes no counter
    and no global statistic, but still stamps the entry's [last_updated]. *)
Theorem increment_unknown_category now e d bt sh :
  ~ In bt ["ad"; "tracker"; "script"] ->
  site_shields e !! d = Some sh ->
  let e' := increment_blocked_count now e d bt in
  global_stats e' = global_stats e /\
  site_shields e' !! d
  = Some (with_counters sh (scripts_blocked sh) (trackers_blocked sh) (ads_blocked sh) now).
Proof.
  intros Hin Hl. cbv zeta. unfold increment_blocked_count. rewrite Hl.
  assert (Ha : String.eqb bt "ad" = false)
    by (apply String.eqb_neq; intros ->; apply Hin; left; reflexivity).
  assert (Ht : String.eqb bt "tracker" = false)
    by (apply String.eqb_neq; intros ->; apply Hin; right; left; reflexivity).
  assert (Hs : String.eqb bt "script" = false)
    by (apply String.eqb_neq; intros ->; apply Hin; right; right; left; reflexivity).
  rewrite Ha, Ht, Hs. simpl. rewrite lookup_insert_eq.
  destruct sh; split; reflexivity.
Qed.

Lemma increment_unknown_category_witness :
  let e' := increment_blocked_count 7 engine_shielded "news.example" "popup" in
  global_stats e' = global_stats engine_shielded /\
  site_shields e' !! "news.example"
  = Some (with_counters (with_shields_domain (SiteShields_default 0) "news.example")
            0 0 0 7).
Proof.
  apply (increment_unknown_category 7 engine_shielded "news.example" "popup"
           (with_shields_domain (SiteShields_default 0) "news.example")).
  - simpl. intros [H|[H|[H|[]]]]; discriminate H.
  - vm_compute. reflexivity.
Defined.

(** X6: the per-domain counters are [u32] and the global ones [u64]: at
    [u32::MAX] an ad increment wraps the domain's counter to 0 while the
    global counter goes up by one (release-build arithmetic). *)
Theorem increment_ad_wraps now e d sh :
  site_shields e !! d = Some sh ->
  ads_blocked sh = (2 ^ 32 - 1)%Z ->
  (0 <= total_ads_blocked (global_stats e) < 2 ^ 64 - 1)%Z ->
  let e' := increment_blocked_count now e d "ad" in
  exists sh', site_shields e' !! d = Some sh' /\ ads_blocked sh' = 0%Z /\
    total_ads_blocked (global_stats e') = (total_ads_blocked (global_stats e) + 1)%Z.
Proof.
  intros Hl Hmax Hg. cbv zeta. unfold increment_blocked_count. rewrite Hl. simpl.
  eexists. rewrite lookup_insert_eq. split; [reflexivity|]. simpl.
  unfold incr_u32, incr_u64. rewrite Hmax. split; [reflexivity|].
  apply Z.mod_small. lia.
Qed.

Definition shields_at_max : SiteShields :=
  with_counters (with_shields_domain (SiteShields_default 0) "news.example")
    0 0 (2 ^ 32 - 1) 0.

Lemma increment_ad_wraps_witness :
  let e' := increment_blocked_count 1
              (update_site_shields (engine_new 0) "news.example" shields_at_max)
              "news.example" "ad" in
  exists sh', site_shields e' !! "news.example" = Some sh' /\ ads_blocked sh' = 0%Z /\
    total_ads_blocked (global_stats e')
    = (total_ads_blocked (global_stats
         (update_site_shields (engine_new 0) "news.example" shields_at_max)) + 1)%Z.
Proof.
  apply (increment_ad_wraps 1 (update_site_shields (engine_new 0) "news.example" shields_at_max)
           "news.example" shields_at_max).
  - vm_compute. reflexivity.
  - reflexivity.
  - simpl. lia.
Defined.

(** ** Decisions *)

(** The scan answers [true] exactly when its first decisive match (a
    matching [Block] or [Allow] rule) is a [Block] rule. *)
Lemma scan_rules_none_prefix regex_is_match e u rt od pre :
  Forall (fun r' => matches_rule regex_is_match e u r' rt od = false \/
                    is_decisive r' = false) pre ->
  scan_rules regex_is_match e u rt od pre = None.
Proof.
  induction 1 as [|r pre [Hm|Hd] _ IH]; simpl; [reflexivity| |].
  - rewrite Hm. exact IH.
  - unfold is_decisive in Hd.
    destruct (matches_rule _ _ _ _ _ _); [destruct (rule_type r); try discriminate|]; exact IH.
Qed.

Lemma scan_rules_first_block regex_is_match e u rt od rs :
  scan_rules regex_is_match e u rt od rs = Some true <->
  exists pre r post, rs = pre ++ r :: post /\ rule_type r = Block /\
    matches_rule regex_is_match e u r rt od = true /\
    Forall (fun r' => matches_rule regex_is_match e u r' rt od = false \/
                      is_decisive r' = false) pre.
Proof.
  split.
  - induction rs as [|r rs IH]; simpl; [discriminate|].
    destruct (matches_rule _ _ _ _ _ _) eqn:Hm.
    + destruct (rule_type r) eqn:Hk; try discriminate.
      * intros _. exists [], r, rs. auto.
      * intros H. destruct (IH H) as (pre & r' & post & -> & ? & ? & ?).
        exists (r :: pre), r', post. repeat split; auto.
        constructor; [right; unfold is_decisive; rewrite Hk; reflexivity|assumption].
      * intros H. destruct (IH H) as (pre & r' & post & -> & ? & ? & ?).
        exists (r :: pre), r', post. repeat split; auto.
        constructor; [right; unfold is_decisive; rewrite Hk; reflexivity|assumption].
    + intros H. destruct (IH H) as (pre & r' & post & -> & ? & ? & ?).
      exists (r :: pre), r', post. repeat split; auto.
  - intros (pre & r & post & -> & Hk & Hm & Hpre).
    rewrite scan_rules_app, (scan_rules_none_prefix _ _ _ _ _ _ Hpre). simpl.
    rewrite Hm, Hk. reflexivity.
Qed.

(** X7: [should_block_request] answers [true] exactly when the URL parses,
    the origin's shields (if any) do not have blocking fully off, and
    either those shields fire the third-party heuristic or the first
    decisive match of the scan, in scan order, is a [Block] rule. *)
Theorem should_block_true_justified url_domain regex_is_match e u rt od :
  should_block_request url_domain regex_is_match e u rt od = true <->
  exists d0, url_domain u = Some d0 /\
    (forall sh, site_shields e !! od = Some sh ->
       ad_blocking sh || tracker_blocking sh = true) /\
    ((exists sh, site_shields e !! od = Some sh /\
        third_party_cookies sh = true /\ default "" d0 <> od) \/
     (exists pre r post, rules_in_scan_order e = pre ++ r :: post /\
        rule_type r = Block /\ matches_rule regex_is_match e u r rt od = true /\
        Forall (fun r' => matches_rule regex_is_match e u r' rt od = false \/
                          is_decisive r' = false) pre)).
Proof.
  unfold should_block_request. rewrite scan_lists_flat. fold (rules_in_scan_order e).
  pose proof (scan_rules_first_block regex_is_match e u rt od (rules_in_scan_order e)) as Hfb.
  destruct (url_domain u) as [d0|] eqn:Hu;
    [|split; [discriminate|intros (d1 & H & _); discriminate]].
  assert (Hdef : forall o : option bool, default false o = true <-> o = Some true).
  { intros [[]|]; simpl; split; congruence. }
  destruct (site_shields e !! od) as [sh|] eqn:Hl.
  - destruct (negb (ad_blocking sh) && negb (tracker_blocking sh)) eqn:Hoff.
    + split; [discriminate|]. intros (d1 & _ & Hnot & _).
      specialize (Hnot sh eq_refl).
      destruct (ad_blocking sh), (tracker_blocking sh); discriminate.
    + assert (Hon : ad_blocking sh || tracker_blocking sh = true).
      { destruct (ad_blocking sh), (tracker_blocking sh); auto. }
      destruct (third_party_cookies sh && negb (String.eqb (default "" d0) od)) eqn:Htp.
      * split; [|reflexivity]. intros _. exists d0. split; [reflexivity|split].
        -- intros sh' Hs. injection Hs as <-. exact Hon.
        -- left. exists sh. apply andb_prop in Htp as [Hc Hne]. repeat split; auto.
           apply String.eqb_neq. destruct (String.eqb _ _); auto.
      * rewrite Hdef. split.
        -- intros Hs. exists d0. split; [reflexivity|split].
           ++ intros sh' Hs'. injection Hs' as <-. exact Hon.
           ++ right. apply Hfb. exact Hs.
        -- intros (d1 & Hd & _ & [(sh' & Hs & Hc & Hne)|Hs]); [|apply Hfb; exact Hs].
           injection Hd as <-. injection Hs as <-. rewrite Hc in Htp. simpl in Htp.
           apply String.eqb_neq in Hne. rewrite Hne in Htp. discriminate.
  - rewrite Hdef. split.
    + intros Hs. exists d0. split; [reflexivity|split; [intros ? ?; discriminate|]].
      right. apply Hfb. exact Hs.
    + intros (d1 & _ & _ & [(sh' & Hs & _)|Hs]); [discriminate|apply Hfb; exact Hs].
Qed.

Lemma should_block_true_justified_witness :
  exists d0, url_domain_http ads_url = Some d0 /\
    (forall sh, site_shields engine_block_first !! "news.example" = Some sh ->
       ad_blocking sh || tracker_blocking sh = true) /\
    ((exists sh, site_shields engine_block_first !! "news.example" = Some sh /\
        third_party_cookies sh = true /\ default "" d0 <> "news.example") \/
     (exists pre r post, rules_in_scan_order engine_block_first = pre ++ r :: post /\
        rule_type r = Block /\
        matches_rule no_regex engine_block_first ads_url r "script" "news.example" = true /\
        Forall (fun r' => matches_rule no_regex engine_block_first ads_url r' "script"
                            "news.example" = false \/ is_decisive r' = false) pre)).
Proof.
  apply (should_block_true_justified url_domain_http no_regex engine_block_first ads_url
           "script" "news.example").
  vm_compute. reflexivity.
Defined.

(** X8: [Hide] and [Redirect] rules never take part in the decision:
    taking every one of them out of the lists changes no answer. *)
Theorem hide_redirect_irrelevant url_domain regex_is_match e u rt od :
  should_block_request url_domain regex_is_match (drop_non_decisive e) u rt od
  = should_block_request url_domain regex_is_match e u rt od.
Proof.
  unfold should_block_request, drop_non_decisive, set_engine_lists. simpl.
  destruct (url_domain u); [|reflexivity].
  assert (Hs : scan_lists regex_is_match
                 (set_engine_lists e (map (fun '(k, fl) => (k, with_list_rules fl
                    (List.filter is_decisive (rules fl)) (list_last_updated fl))) (filter_lists e)))
                 u rt od
                 (map (fun '(k, fl) => (k, with_list_rules fl
                    (List.filter is_decisive (rules fl)) (list_last_updated fl))) (filter_lists e))
               = scan_lists regex_is_match e u rt od (filter_lists e)).
  { rewrite (scan_lists_compiled regex_is_match _ e) by reflexivity.
    induction (filter_lists e) as [|[k fl] ls IH]; [reflexivity|]. simpl.
    rewrite scan_rules_filter_decisive, IH. reflexivity. }
  unfold set_engine_lists in Hs. simpl in Hs. rewrite Hs. reflexivity.
Qed.

(** X9: a rule scoped away from the origin (its [exceptions] list the
    origin, or its [domains] do not) never matches a request from that
    origin, so it can be dropped from any rule sequence without changing
    the scan. *)
Theorem scoped_rule_never_decides regex_is_match e u r rt od :
  ((exists xs, exceptions r = Some xs /\ In od xs) \/
   (exists ds, domains r = Some ds /\ ~ In od ds)) ->
  matches_rule regex_is_match e u r rt od = false /\
  (forall pre post, scan_rules regex_is_match e u rt od (pre ++ r :: post)
                    = scan_rules regex_is_match e u rt od (pre ++ post)).
Proof.
  intros Hscope.
  assert (Hm : matches_rule regex_is_match e u r rt od = false).
  { unfold matches_rule. destruct (negb _); [reflexivity|].
    destruct Hscope as [(xs & Hx & Hin)|(ds & Hd & Hnin)].
    - destruct (match domains r with Some ds => _ | None => _ end); [reflexivity|].
      rewrite Hx. unfold vec_contains.
      replace (existsb (String.eqb od) xs) with true; [reflexivity|].
      symmetry. apply existsb_exists. exists od. split; [exact Hin|apply String.eqb_refl].
    - rewrite Hd. unfold vec_contains.
      replace (existsb (String.eqb od) ds) with false; [reflexivity|].
      symmetry. apply Bool.not_true_iff_false. intros H.
      apply existsb_exists in H as (x & Hx & Heq). apply String.eqb_eq in Heq. subst x.
      exact (Hnin Hx). }
  split; [exact Hm|]. intros pre post. apply scan_rules_drop_nonmatching. exact Hm.
Qed.

Definition rule_excepting_news : FilterRule :=
  {| pattern := "ads.example.com"; rule_type := Block; domains := None;
     exceptions := Some ["news.example"]; options := FilterOptions_default |}.

Lemma scoped_rule_never_decides_witness :
  matches_rule no_regex engine_block_first ads_url rule_excepting_news "script" "news.example"
  = false /\
  (forall pre post,
     scan_rules no_regex engine_block_first ads_url "script" "news.example"
       (pre ++ rule_excepting_news :: post)
     = scan_rules no_regex engine_block_first ads_url "script" "news.example" (pre ++ post)).
Proof.
  apply scoped_rule_never_decides. left. exists ["news.example"]. split; [reflexivity|].
  left. reflexivity.
Defined.

(** ** Refresh *)



(** X11: a refresh changes only the rules and [last_updated] of lists:
    keys, order, names, URLs and enabled flags of the lists, the shields,
    the compiled patterns and the statistics are kept. *)
Theorem refresh_frame net clock e :
  let e' := fst (update_filter_lists net clock e) in
  map (fun '(k, fl) => (k, name fl, url fl, enabled fl)) (filter_lists e')
  = map (fun '(k, fl) => (k, name fl, url fl, enabled fl)) (filter_lists e) /\
  site_shields e' = site_shields e /\ compiled_rules e' = compiled_rules e /\
  global_stats e' = global_stats e.
Proof.
  simpl. split; [|repeat split].
  generalize 0%nat. induction (filter_lists e) as [|[k fl] ls IH]; intros n; [reflexivity|].
  simpl. rewrite IH. destruct (net n (url fl)); reflexivity.
Qed.

(** X12: a freshly built engine (either iteration order of its two empty
    default lists, no shields) blocks nothing. *)
Theorem new_engine_blocks_nothing url_domain regex_is_match t1 t2 ls u rt od :
  ls ≡ₚ default_filter_lists t1 t2 ->
  should_block_request url_domain regex_is_match (FilterEngine_new ls) u rt od = false.
Proof.
  intros Hp. unfold should_block_request. simpl.
  destruct (url_domain u); [|reflexivity].
  rewrite lookup_empty, scan_lists_flat.
  assert (Hnil : forall x, In x ls -> rules x.2 = []).
  { intros [k fl] Hin. apply (Permutation_in _ Hp) in Hin. simpl in Hin.
    destruct Hin as [Hin|[Hin|[]]]; injection Hin as <- <-; reflexivity. }
  match goal with |- context [flat_map ?f ls] =>
    assert (Hf : flat_map f ls = []) end.
  { clear Hp. induction ls as [|[k fl] ls IH]; [reflexivity|]. simpl.
    pose proof (Hnil (k, fl) (or_introl eq_refl)) as Hk. simpl in Hk. rewrite Hk.
    destruct (enabled fl); simpl; apply IH; intros x Hx; apply Hnil; right; exact Hx. }
  rewrite Hf. reflexivity.
Qed.

Lemma new_engine_blocks_nothing_witness :
  should_block_request url_domain_http no_regex (FilterEngine_new (default_filter_lists 1 2))
    ads_url "script" "news.example" = false.
Proof. apply (new_engine_blocks_nothing _ _ 1 2). reflexivity. Defined.

(** ** What the parser produces *)

(** The shape of every rule [parse_filter_rules] builds. *)
Definition parsed_shape (r : FilterRule) : Prop :=
  domains r = None /\ exceptions r = None /\ options r = FilterOptions_default /\
  contains (pattern r) "$" = false /\ contains (pattern r) "@@" = false.

Lemma starts_with_app s t p :
  starts_with s p = true -> starts_with (s ++ t)%string p = true.
Proof.
  revert s. induction p as [|c p IH]; intros s; [destruct (s ++ t)%string; reflexivity|].
  destruct s as [|c' s]; simpl; [discriminate|].
  intros H. apply andb_prop in H as [H1 H2]. rewrite H1, (IH s H2). reflexivity.
Qed.

Lemma contains_app s t p :
  contains s p = true -> contains (s ++ t)%string p = true.
Proof.
  induction s as [|c s IH]; simpl; intros H.
  - rewrite orb_false_r in H. destruct p; [destruct t; reflexivity|discriminate].
  - apply orb_prop in H as [H|H].
    + pose proof (starts_with_app (String c s) t p H) as H'. simpl in H'.
      rewrite H'. reflexivity.
    + rewrite (IH H), orb_true_r. reflexivity.
Qed.

Lemma before_dollar_prefix s : exists t, s = (before_dollar s ++ t)%string.
Proof.
  induction s as [|c s IH]; simpl; [exists ""; reflexivity|].
  destruct (Ascii.eqb c "$"%char); [exists (String c s); reflexivity|].
  destruct IH as [t Ht]. exists t. exact (f_equal (String c) Ht).
Qed.

Lemma before_dollar_no_dollar s : contains (before_dollar s) "$" = false.
Proof.
  induction s as [|c s IH]; [reflexivity|]. simpl.
  destruct (Ascii.eqb_spec c "$"%char) as [->|Hne]; [reflexivity|].
  change (starts_with (String c (before_dollar s)) "$" || contains (before_dollar s) "$"
          = false).
  rewrite IH, orb_false_r. cbn [starts_with].
  destruct (Ascii.eqb_spec "$"%char c); [congruence|reflexivity].
Qed.

Lemma replace_atat_head c s :
  c <> "@"%char -> exists t, replace_atat (String c s) = String c t.
Proof.
  intros Hc. destruct s as [|c2 s]; simpl; [exists ""; reflexivity|].
  destruct (Ascii.eqb_spec c "@"%char); [congruence|]. simpl. eexists. reflexivity.
Qed.

Lemma replace_atat_cons2 c1 c2 s' :
  replace_atat (String c1 (String c2 s'))
  = if Ascii.eqb c1 "@"%char && Ascii.eqb c2 "@"%char then replace_atat s'
    else String c1 (replace_atat (String c2 s')).
Proof. reflexivity. Qed.

Lemma replace_atat_no_atat s : contains (replace_atat s) "@@" = false.
Proof.
  assert (H : forall n s, String.length s <= n -> contains (replace_atat s) "@@" = false).
  { induction n as [|n IH]; intros s0 Hlen.
    - destruct s0; [reflexivity|simpl in Hlen; lia].
    - destruct s0 as [|c1 [|c2 s']]; [reflexivity| |].
      + cbn [replace_atat contains starts_with]. rewrite andb_false_r. reflexivity.
      + simpl in Hlen. rewrite replace_atat_cons2.
        destruct (Ascii.eqb_spec c1 "@"%char) as [E1|E1];
          destruct (Ascii.eqb_spec c2 "@"%char) as [E2|E2]; cbn [andb].
        * apply IH. lia.
        * cbn [contains]. rewrite (IH (String c2 s')) by (simpl; lia). rewrite orb_false_r.
          destruct (replace_atat_head c2 s' E2) as [t Ht]. rewrite Ht.
          cbn [starts_with]. destruct (Ascii.eqb_spec "@"%char c2); [congruence|].
          rewrite andb_false_r. reflexivity.
        * cbn [contains]. rewrite (IH (String c2 s')) by (simpl; lia). rewrite orb_false_r.
          cbn [starts_with]. destruct (Ascii.eqb_spec "@"%char c1); [congruence|].
          reflexivity.
        * cbn [contains]. rewrite (IH (String c2 s')) by (simpl; lia). rewrite orb_false_r.
          cbn [starts_with]. destruct (Ascii.eqb_spec "@"%char c1); [congruence|].
          reflexivity. }
  exact (H _ s (le_n _)).
Qed.

Lemma parse_line_shape l r : parse_line l = Some r -> parsed_shape r.
Proof.
  unfold parse_line. destruct (_ || _ || _); [discriminate|].
  intros H. injection H as <-. unfold parsed_shape. simpl.
  repeat split; [apply before_dollar_no_dollar|].
  destruct (before_dollar_prefix (replace_atat (trim l))) as [t Ht].
  destruct (contains (before_dollar (replace_atat (trim l))) "@@") eqn:Hc; [|reflexivity].
  apply (contains_app _ t) in Hc. rewrite <- Ht, replace_atat_no_atat in Hc. discriminate.
Qed.

(** X13: every rule [parse_filter_rules] builds has no [domains] and no
    [exceptions] scope, the default (all true) resource flags, and a
    pattern that contains neither ['$'] nor ["@@"]. *)
Theorem parse_filter_rules_shape content :
  Forall parsed_shape (parse_filter_rules content).
Proof.
  unfold parse_filter_rules. induction (lines content) as [|l ls IH]; simpl; [constructor|].
  destruct (parse_line l) as [r|] eqn:Hp; [|exact IH].
  constructor; [exact (parse_line_shape l r Hp)|exact IH].
Qed.

(** ** Invariants of the reachable states *)

Definition list_inv (kfl : string * FilterList) : Prop :=
  enabled kfl.2 = true /\ Forall parsed_shape (rules kfl.2).

Definition engine_inv (e : FilterEngine) : Prop :=
  compiled_rules e = ∅ /\
  map fst (filter_lists e) ≡ₚ ["easylist"; "easyprivacy"] /\
  Forall list_inv (filter_lists e).

Lemma refresh_lists_keys net clock n ls :
  map fst (refresh_lists net clock n ls) = map fst ls.
Proof.
  revert n. induction ls as [|[k fl] ls IH]; intros n; [reflexivity|].
  simpl. rewrite IH. reflexivity.
Qed.

Lemma refresh_lists_inv net clock n ls :
  Forall list_inv ls -> Forall list_inv (refresh_lists net clock n ls).
Proof.
  revert n. induction ls as [|[k fl] ls IH]; intros n Hall; [constructor|].
  inversion Hall as [|? ? [Hen Hr] Hrest]; subst. simpl. constructor; [|apply IH; exact Hrest].
  destruct (net n (url fl)); split; simpl; auto. apply parse_filter_rules_shape.
Qed.

(** X14: in every state the engine can reach from [FilterEngine::new()]
    through its commands, no pattern is compiled, the filter lists are the
    two default entries [easylist] and [easyprivacy] (in some order), both
    enabled, and every rule of them is unscoped, has the default resource
    flags and a pattern without ['$'] or ["@@"]. *)
Theorem reachable_engine_inv e : reachable e -> engine_inv e.
Proof.
  induction 1 as [t1 t2 ls Hp|e d sh _ IH|now e d bt _ IH|net clock e _ IH].
  - split; [reflexivity|split].
    + apply (Permutation_map fst) in Hp. exact Hp.
    + apply Forall_forall. intros x Hin. apply list_elem_of_In in Hin.
      apply (Permutation_in _ Hp) in Hin. simpl in Hin.
      destruct Hin as [<-|[<-|[]]]; split; simpl; auto.
  - exact IH.
  - destruct (increment_shape now e d bt) as (Hl & Hc & _).
    destruct IH as (Hc0 & Hk & Hall). unfold engine_inv. rewrite Hl, Hc. auto.
  - destruct IH as (Hc0 & Hk & Hall). split; [exact Hc0|split]; simpl.
    + rewrite refresh_lists_keys. exact Hk.
    + apply refresh_lists_inv. exact Hall.
Qed.

Lemma reachable_engine_inv_witness :
  engine_inv (fst (update_filter_lists net_all_ok (fun _ => 3%Z)
                     (FilterEngine_new (default_filter_lists 1 2)))).
Proof.
  apply reachable_engine_inv. apply reach_refresh. apply (reach_new 1 2). reflexivity.
Defined.

(** X15: in every reachable state the scan meets the rules of all lists,
    and a rule matches a request exactly when its pattern is a substring of
    the URL: the request type, the origin and the regex matcher play no
    part in any match. *)
Theorem reachable_match_is_substring regex_is_match e :
  reachable e ->
  rules_in_scan_order e = flat_map (fun kfl => rules kfl.2) (filter_lists e) /\
  (forall r u rt od, In r (rules_in_scan_order e) ->
     matches_rule regex_is_match e u r rt od = contains u (pattern r)).
Proof.
  intros Hr. destruct (reachable_engine_inv e Hr) as (Hc & _ & Hall).
  assert (Horder : rules_in_scan_order e = flat_map (fun kfl => rules kfl.2) (filter_lists e)).
  { unfold rules_in_scan_order. clear Hc.
    induction (filter_lists e) as [|[k fl] ls IH]; [reflexivity|].
    inversion Hall as [|? ? [Hen _] Hrest]; subst. simpl in *. rewrite Hen, IH by exact Hrest.
    reflexivity. }
  split; [exact Horder|]. intros r u rt od Hin.
  rewrite Horder in Hin. apply in_flat_map in Hin as ([k fl] & Hkfl & Hin).
  rewrite Forall_forall in Hall. apply list_elem_of_In in Hkfl.
  destruct (Hall _ Hkfl) as [_ Hshape]. rewrite Forall_forall in Hshape.
  apply list_elem_of_In in Hin.
  destruct (Hshape r Hin) as (Hd & Hx & Ho & _).
  unfold matches_rule. rewrite Hc, lookup_empty, Hd, Hx, Ho. simpl.
  repeat (destruct (String.eqb _ _)); destruct (contains u (pattern r)); reflexivity.
Qed.

Lemma reachable_match_is_substring_witness :
  let e := fst (update_filter_lists net_all_ok (fun _ => 3%Z)
                  (FilterEngine_new (default_filter_lists 1 2))) in
  rules_in_scan_order e = flat_map (fun kfl => rules kfl.2) (filter_lists e) /\
  (forall r u rt od, In r (rules_in_scan_order e) ->
     matches_rule no_regex e u r rt od = contains u (pattern r)).
Proof.
  apply reachable_match_is_substring. apply reach_refresh. apply (reach_new 1 2).
  reflexivity.
Defined.
